(** * Camera: viewport geometry, ray sampling and path integration

    A shallow embedding of [camera.h]: the [camera] class with its
    [render], [initialize], [get_ray], [pixel_sample_square],
    [defocus_disk_sample] and [ray_colour] member functions.

    The C++ code computes on [double] and [int].  The embedding is written
    once, over an interface [Scalar] of the operations the code applies to
    a [double]; it is instantiated twice:
    - at IEEE binary64 (Rocq's primitive floats), where every definition
      evaluates, and
    - at the real numbers, the arithmetic the specification reasons in
      ("real-valued 3-vector", "positive real").
    An [int] is a [Z]; the only place where its 32-bit range matters is the
    conversion [static_cast<int>] in [initialize], whose range check is
    written out. *)

From Stdlib Require Import ZArith Bool List Lia.
From Stdlib Require Import Floats.
From Stdlib Require Import Reals Lra Psatz.
From Stdlib Require String Ascii.
From Equations Require Import Equations.
Import ListNotations.

Set Implicit Arguments.
Set Warnings "-inexact-float".
Local Open Scope Z_scope.

(** ** The C++ [int] *)

Definition INT_MIN : Z := - 2 ^ 31.
Definition INT_MAX : Z := 2 ^ 31 - 1.

Definition in_int_range (n : Z) : bool := (INT_MIN <=? n) && (n <=? INT_MAX).

(** Truncating division ([Z.quot]) against flooring division ([/]). *)
Lemma quot_floor (a b : Z) :
  0 < b -> Z.quot a b = a / b \/ (Z.quot a b = a / b + 1 /\ Z.quot a b <= 0).
Proof.
  intros Hb.
  destruct (Z.le_gt_cases 0 a) as [Ha | Ha].
  - left. apply Z.quot_div_nonneg; lia.
  - replace a with (- (- a)) by lia.
    set (c := - a). assert (Hc : 0 < c) by (unfold c; lia).
    rewrite Z.quot_opp_l by lia.
    rewrite Z.quot_div_nonneg by lia.
    assert (Hpos : 0 <= c / b) by (apply Z.div_pos; lia).
    destruct (Z.eq_dec (c mod b) 0) as [Hm | Hm].
    + left. rewrite Z.div_opp_l_z by lia. reflexivity.
    + right. rewrite Z.div_opp_l_nz by lia. lia.
Qed.

(** ** Scalars: what the code does with a [double] *)

Class Scalar (T : Type) : Type := {
  (** implicit conversion [int -> double] *)
  of_int : Z -> T;
  sadd : T -> T -> T;
  ssub : T -> T -> T;
  smul : T -> T -> T;
  sdiv : T -> T -> T;
  sneg : T -> T;
  (** [std::sqrt] *)
  ssqrt : T -> T;
  (** [a <= b] *)
  sleb : T -> T -> bool;
  (** [a < b] *)
  sltb : T -> T -> bool;
  (** [static_cast<int>(a)]: the value truncated toward zero; the
      conversion is undefined ([None]) when the truncated value is not an
      [int] (or [a] is not finite) *)
  to_int : T -> option Z;
  (** the largest integer not above [a]; it is only used to state what
      [to_int] returns *)
  sfloor : T -> Z;
  (** [a < b] excludes [b <= a] *)
  sltb_sleb : forall a b, sltb a b = true -> sleb b a = false;
  (** a converted value is an [int] *)
  to_int_range : forall a n, to_int a = Some n -> in_int_range n = true;
  (** truncation toward zero is the floor, or one above it for a negative
      value that is not an integer *)
  to_int_floor : forall a n,
    to_int a = Some n -> n = sfloor a \/ (n = sfloor a + 1 /\ n <= 0)
}.

Declare Scope scalar_scope.
Delimit Scope scalar_scope with S.
Infix "+" := sadd : scalar_scope.
Infix "-" := ssub : scalar_scope.
Infix "*" := smul : scalar_scope.
Infix "/" := sdiv : scalar_scope.
Notation "- a" := (sneg a) : scalar_scope.
Infix "<=?" := sleb : scalar_scope.
Infix "<?" := sltb : scalar_scope.

(** A decimal literal [n/d] of the source ([0.5], [0.7], [0.001]).  At
    binary64 the division is correctly rounded, so the quotient of the two
    (exactly converted) integers is the [double] the compiler reads the
    literal as; see [literals_binary64] below. *)
Definition literal {T} `{Scalar T} (n d : Z) : T := (of_int n / of_int d)%S.

(** ** [vec3], [point3], [colour] *)

Section Vec3.

Context {T : Type} `{Scalar T}.
Local Open Scope scalar_scope.

(** Modelled from the spec: [vec3.h] is not among the sources.  The spec's
    "Vector/Point Arithmetic" is a 3-component vector with "addition,
    scalar scale, dot and cross products, normalization, componentwise
    multiplication" and component access; [point3] and [colour] are the
    same type. *)
Record vec3 : Type := Vec3 { e0 : T; e1 : T; e2 : T }.

Definition vec_x (a : vec3) : T := e0 a.
Definition vec_y (a : vec3) : T := e1 a.
Definition vec_z (a : vec3) : T := e2 a.

(** [a + b] *)
Definition vadd (a b : vec3) : vec3 :=
  Vec3 (e0 a + e0 b) (e1 a + e1 b) (e2 a + e2 b).

(** [a - b] *)
Definition vsub (a b : vec3) : vec3 :=
  Vec3 (e0 a - e0 b) (e1 a - e1 b) (e2 a - e2 b).

(** [-a] *)
Definition vneg (a : vec3) : vec3 := Vec3 (- e0 a) (- e1 a) (- e2 a).

(** [a * b], componentwise *)
Definition vmul (a b : vec3) : vec3 :=
  Vec3 (e0 a * e0 b) (e1 a * e1 b) (e2 a * e2 b).

(** [t * a] and [a * t], scalar scale *)
Definition vscale (t : T) (a : vec3) : vec3 :=
  Vec3 (t * e0 a) (t * e1 a) (t * e2 a).

(** [a / t]: scale by the reciprocal *)
Definition vdiv (a : vec3) (t : T) : vec3 := vscale (of_int 1 / t) a.

Definition dot (a b : vec3) : T :=
  e0 a * e0 b + e1 a * e1 b + e2 a * e2 b.

Definition cross (a b : vec3) : vec3 :=
  Vec3 (e1 a * e2 b - e2 a * e1 b)
       (e2 a * e0 b - e0 a * e2 b)
       (e0 a * e1 b - e1 a * e0 b).

Definition length_squared (a : vec3) : T := dot a a.

Definition length (a : vec3) : T := ssqrt (length_squared a).

(** normalization *)
Definition unit_vector (a : vec3) : vec3 := vdiv a (length a).

End Vec3.

Arguments vec3 T : clear implicits.

Declare Scope vec_scope.
Delimit Scope vec_scope with V.
Infix "+" := vadd : vec_scope.
Infix "-" := vsub : vec_scope.
Infix "*" := vmul : vec_scope.
Infix "*:" := vscale (at level 40, left associativity) : vec_scope.
Infix "/:" := vdiv (at level 40, left associativity) : vec_scope.
Notation "- a" := (vneg a) : vec_scope.

(** ** Binary64: the arithmetic the compiled code runs *)

Module Binary64.

Definition float_of_int (n : Z) : float :=
  match n with
  | Z0 => PrimFloat.zero
  | Zpos _ => PrimFloat.of_uint63 (Uint63.of_Z n)
  | Zneg p => PrimFloat.opp (PrimFloat.of_uint63 (Uint63.of_Z (Zpos p)))
  end.

(** A finite [double] is [n * 2^e] for the signed mantissa [n] of its
    decomposition. *)
Definition signed (s : bool) (m : positive) : Z := if s then Zneg m else Zpos m.

(** The integer part of a finite [double], rounded toward zero. *)
Definition truncate (a : float) : option Z :=
  match Prim2SF a with
  | S754_zero _ => Some 0
  | S754_finite s m e =>
      Some (if 0 <=? e then signed s m * 2 ^ e
            else Z.quot (signed s m) (2 ^ (- e)))
  | S754_infinity _ | S754_nan => None
  end.

Definition float_to_int (a : float) : option Z :=
  match truncate a with
  | Some n => if in_int_range n then Some n else None
  | None => None
  end.

(** The largest integer not above a finite [double] ([0] for the others,
    which [float_to_int] does not convert). *)
Definition float_floor (a : float) : Z :=
  match Prim2SF a with
  | S754_finite s m e =>
      if 0 <=? e then signed s m * 2 ^ e else Z.div (signed s m) (2 ^ (- e))
  | _ => 0
  end.

Lemma SFcompare_antisym (a b : spec_float) :
  SFcompare b a = option_map CompOpp (SFcompare a b).
Proof.
  destruct a as [sa | sa | | sa ma ea], b as [sb | sb | | sb mb eb]; simpl;
    try reflexivity;
    try (destruct sa; reflexivity);
    try (destruct sb; reflexivity);
    try (destruct sa, sb; reflexivity).
  f_equal.
  destruct sa, sb; simpl; try reflexivity;
    rewrite (Z.compare_antisym ea eb);
    destruct (ea ?= eb)%Z; simpl; try reflexivity.
  - f_equal. symmetry. exact (Pos.compare_cont_antisym ma mb Eq).
  - symmetry. exact (Pos.compare_cont_antisym ma mb Eq).
Qed.

Lemma SFltb_SFleb (a b : spec_float) : SFltb a b = true -> SFleb b a = false.
Proof.
  unfold SFltb, SFleb. rewrite (SFcompare_antisym a b).
  destruct (SFcompare a b) as [[ | | ] | ]; simpl; congruence.
Qed.

Lemma ltb_leb (a b : float) :
  PrimFloat.ltb a b = true -> PrimFloat.leb b a = false.
Proof. rewrite ltb_spec, leb_spec. apply SFltb_SFleb. Qed.

Lemma float_to_int_range (a : float) (n : Z) :
  float_to_int a = Some n -> in_int_range n = true.
Proof.
  unfold float_to_int. destruct (truncate a) as [k | ]; [ | discriminate ].
  destruct (in_int_range k) eqn:Hk; [ | discriminate ].
  intros [= <-]. exact Hk.
Qed.

Lemma float_to_int_floor (a : float) (n : Z) :
  float_to_int a = Some n ->
  n = float_floor a \/ (n = float_floor a + 1 /\ n <= 0).
Proof.
  unfold float_to_int, truncate, float_floor.
  destruct (Prim2SF a) as [s | s | | s m e]; try discriminate.
  - destruct (in_int_range 0); [ | discriminate ]. intros [= <-]. now left.
  - destruct (0 <=? e) eqn:He.
    + destruct (in_int_range _); [ | discriminate ]. intros [= <-]. now left.
    + destruct (in_int_range _); [ | discriminate ]. intros [= <-].
      apply quot_floor. apply Z.leb_gt in He. apply Z.pow_pos_nonneg; lia.
Qed.

#[export] Instance float_scalar : Scalar float := {
  of_int := float_of_int;
  sadd := PrimFloat.add;
  ssub := PrimFloat.sub;
  smul := PrimFloat.mul;
  sdiv := PrimFloat.div;
  sneg := PrimFloat.opp;
  ssqrt := PrimFloat.sqrt;
  sleb := PrimFloat.leb;
  sltb := PrimFloat.ltb;
  to_int := float_to_int;
  sfloor := float_floor;
  sltb_sleb := ltb_leb;
  to_int_range := float_to_int_range;
  to_int_floor := float_to_int_floor
}.

End Binary64.

(** ** The real numbers: the arithmetic the specification reasons in *)

Module Exact.

Definition Rleb (a b : R) : bool := if Rle_dec a b then true else false.
Definition Rltb (a b : R) : bool := if Rlt_dec a b then true else false.

(** The integer part of a real, rounded toward zero. *)
Definition truncate (a : R) : Z := if Rle_dec 0 a then Zfloor a else Zceil a.

Definition R_to_int (a : R) : option Z :=
  if in_int_range (truncate a) then Some (truncate a) else None.

Lemma Rltb_Rleb (a b : R) : Rltb a b = true -> Rleb b a = false.
Proof.
  unfold Rltb, Rleb.
  destruct (Rlt_dec a b); [ | discriminate ].
  destruct (Rle_dec b a); [ lra | reflexivity ].
Qed.

Lemma truncate_floor (a : R) :
  truncate a = Zfloor a \/ (truncate a = Zfloor a + 1 /\ truncate a <= 0).
Proof.
  unfold truncate. destruct (Rle_dec 0 a) as [Ha | Ha]; [ now left | ].
  pose proof (Zfloor_bound a) as [Hf1 Hf2].
  pose proof (Zceil_bound a) as [Hc1 Hc2].
  assert (Zfloor a <= Zceil a) by (apply le_IZR; lra).
  assert (Zceil a < Zfloor a + 2) by (apply lt_IZR; rewrite plus_IZR; lra).
  assert (Zceil a < 1) by (apply lt_IZR; lra).
  lia.
Qed.

Lemma R_to_int_range (a : R) (n : Z) :
  R_to_int a = Some n -> in_int_range n = true.
Proof.
  unfold R_to_int. destruct (in_int_range (truncate a)) eqn:Hk; [ | discriminate ].
  intros [= <-]. exact Hk.
Qed.

Lemma R_to_int_floor (a : R) (n : Z) :
  R_to_int a = Some n -> n = Zfloor a \/ (n = Zfloor a + 1 /\ n <= 0).
Proof.
  unfold R_to_int. destruct (in_int_range (truncate a)); [ | discriminate ].
  intros [= <-]. apply truncate_floor.
Qed.

#[export] Instance R_scalar : Scalar R := {
  of_int := IZR;
  sadd := Rplus;
  ssub := Rminus;
  smul := Rmult;
  sdiv := Rdiv;
  sneg := Ropp;
  ssqrt := sqrt;
  sleb := Rleb;
  sltb := Rltb;
  to_int := R_to_int;
  sfloor := Zfloor;
  sltb_sleb := Rltb_Rleb;
  to_int_range := R_to_int_range;
  to_int_floor := R_to_int_floor
}.

End Exact.

(** ** The camera *)

Section Camera.

Context {T : Type} `{Scalar T}.

(** *** The collaborators' data *)

(** [ray.h]: an origin point and a direction vector. *)
Record ray : Type := Ray { origin : vec3 T; direction : vec3 T }.

(** [interval.h]: the bounds [interval(min, max)] of a ray parameter. *)
Record interval : Type := Interval { t_min : T; t_max : T }.

(** What a [shared_ptr<material>] points to; [scatter] below dispatches
    on it. *)
Variable material : Type.

(** [hittable.h]: intersection point, surface normal, material, ray
    parameter and front-face flag. *)
Record hit_record : Type := Hit_record {
  hit_p : vec3 T;
  hit_normal : vec3 T;
  mat : material;
  hit_t : T;
  front_face : bool
}.

(** *** Effects

    [random_double] draws from a global generator, and the scene and the
    materials are reached through virtual calls that may draw from it too.
    [St] is the state all of them share; a computation of the camera is a
    function of that state. *)
Variable St : Type.

Definition M (A : Type) : Type := St -> A * St.

Definition ret {A} (a : A) : M A := fun s => (a, s).

Definition bind {A B} (m : M A) (k : A -> M B) : M B :=
  fun s => let (a, s') := m s in k a s'.

Notation "x <- m ;; k" := (bind m (fun x => k))
  (at level 61, m at next level, right associativity).

(** [hittable]: the abstract class with the one virtual member
    [hit(r, ray_t, rec)]; it returns [true] and fills [rec], or [false]. *)
Record hittable : Type := Hittable {
  hit : ray -> interval -> M (option hit_record)
}.

(** [material::scatter(r_in, rec, attenuation, scattered)]: [true] with
    the two out-parameters filled, or [false]. *)
Variable scatter : material -> ray -> hit_record -> M (option (vec3 T * ray)).

(** [rtweekend.h], not among the sources: the constant [infinity], the
    conversion [degrees_to_radians] and the two generators. *)
Variable infinity : T.
Variable degrees_to_radians : T -> T.
Variable random_double : M T.
Variable random_in_unit_disk : M (vec3 T).

(** [<cmath>]'s [tan]. *)
Variable tan : T -> T.

(** *** The class [camera]: public members *)

Record camera : Type := Camera {
  aspect_ratio : T;
  image_width : Z;
  samples_per_pixel : Z;
  max_depth : Z;
  vfov : T;
  lookfrom : vec3 T;
  lookat : vec3 T;
  vup : vec3 T;
  defocus_angle : T;
  focus_dist : T
}.

(** *** Private members, set by [initialize] *)

Record camera_state : Type := Camera_state {
  image_height : Z;
  center : vec3 T;
  pixel00_loc : vec3 T;
  pixel_delta_u : vec3 T;
  pixel_delta_v : vec3 T;
  u : vec3 T;
  v : vec3 T;
  w : vec3 T;
  defocus_disk_u : vec3 T;
  defocus_disk_v : vec3 T
}.

(** The default member initializers of the public members. *)
Definition default_camera : camera :=
  Camera (of_int 1) 100 10 10 (of_int 90)
    (Vec3 (of_int 0) (of_int 0) (of_int (-1)))
    (Vec3 (of_int 0) (of_int 0) (of_int 0))
    (Vec3 (of_int 0) (of_int 1) (of_int 0))
    (of_int 0) (of_int 10).

(** [initialize()].  The one step that can go wrong is the conversion of
    [image_width / aspect_ratio] to [int]. *)
Definition initialize (c : camera) : option camera_state :=
  match to_int (of_int (image_width c) / aspect_ratio c)%S with
  | None => None
  | Some image_height0 =>
    let image_height := if image_height0 <? 1 then 1 else image_height0 in
    let center := lookfrom c in
    let theta := degrees_to_radians (vfov c) in
    let h := tan (theta / of_int 2)%S in
    let viewport_height := (of_int 2 * h * focus_dist c)%S in
    let viewport_width :=
      (viewport_height * (of_int (image_width c) / of_int image_height))%S in
    let w := unit_vector (lookfrom c - lookat c)%V in
    let u := unit_vector (cross (vup c) w) in
    let v := cross w u in
    let viewport_u := (viewport_width *: u)%V in
    let viewport_v := (viewport_height *: - v)%V in
    let pixel_delta_u := (viewport_u /: of_int (image_width c))%V in
    let pixel_delta_v := (viewport_v /: of_int image_height)%V in
    let viewport_upper_left :=
      (center - focus_dist c *: w - viewport_u /: of_int 2
              - viewport_v /: of_int 2)%V in
    let pixel00_loc :=
      (viewport_upper_left
       + literal 5 10 *: (pixel_delta_u + pixel_delta_v))%V in
    let defocus_radius :=
      (focus_dist c
       * tan (degrees_to_radians (defocus_angle c / of_int 2)))%S in
    let defocus_disk_u := (defocus_radius *: u)%V in
    let defocus_disk_v := (defocus_radius *: v)%V in
    Some (Camera_state image_height center pixel00_loc
            pixel_delta_u pixel_delta_v u v w defocus_disk_u defocus_disk_v)
  end.

(** The locals [viewport_height] and [viewport_width] of [initialize],
    read back from the configuration and the image height. *)
Definition viewport_height (c : camera) : T :=
  (of_int 2 * tan (degrees_to_radians (vfov c) / of_int 2) * focus_dist c)%S.

Definition viewport_width (c : camera) (st : camera_state) : T :=
  (viewport_height c
   * (of_int (image_width c) / of_int (image_height st)))%S.

(** [pixel_sample_square()]: a random point in the square surrounding a
    pixel at the origin. *)
Definition pixel_sample_square (st : camera_state) : M (vec3 T) :=
  d1 <- random_double ;;
  let px := (- literal 5 10 + d1)%S in
  d2 <- random_double ;;
  let py := (- literal 5 10 + d2)%S in
  ret (px *: pixel_delta_u st + py *: pixel_delta_v st)%V.

(** [defocus_disk_sample()]: a random point in the camera defocus disk. *)
Definition defocus_disk_sample (st : camera_state) : M (vec3 T) :=
  p <- random_in_unit_disk ;;
  ret (center st + e0 p *: defocus_disk_u st + e1 p *: defocus_disk_v st)%V.

(** [get_ray(i, j)]: a randomly sampled camera ray for the pixel at
    location [i, j], originating from the camera defocus disk. *)
Definition get_ray (c : camera) (st : camera_state) (i j : Z) : M ray :=
  let pixel_center :=
    (pixel00_loc st + of_int i *: pixel_delta_u st
                    + of_int j *: pixel_delta_v st)%V in
  sq <- pixel_sample_square st ;;
  let pixel_sample := (pixel_center + sq)%V in
  ray_origin <-
    (if (defocus_angle c <=? of_int 0)%S then ret (center st)
     else defocus_disk_sample st) ;;
  let ray_direction := (pixel_sample - ray_origin)%V in
  ret (Ray ray_origin ray_direction).

(** The colours [ray_colour] builds from literals. *)
Definition black : vec3 T := Vec3 (of_int 0) (of_int 0) (of_int 0).
Definition white : vec3 T := Vec3 (of_int 1) (of_int 1) (of_int 1).
Definition sky_blue : vec3 T := Vec3 (literal 5 10) (literal 7 10) (of_int 1).

(** The last three lines of [ray_colour]: the background gradient. *)
Definition background (r : ray) : vec3 T :=
  let unit_direction := unit_vector (direction r) in
  let a := (literal 5 10 * (vec_y unit_direction + of_int 1))%S in
  ((of_int 1 - a)%S *: white + a *: sky_blue)%V.

(** [ray_colour(r, depth, world)].  The recursion is on [depth - 1] under
    the test [depth <= 0] having failed. *)
Equations? ray_colour (r : ray) (depth : Z) (world : hittable) (s : St)
  : vec3 T * St by wf (Z.to_nat depth) lt :=
ray_colour r depth world s with Logic.inspect (depth <=? 0) := {
  | exist _ true _ => (black, s)
  | exist _ false Hdepth with hit world r (Interval (literal 1 1000) infinity) s := {
    | (Some rec, s1) with scatter (mat rec) r rec s1 := {
      | (Some (attenuation, scattered), s2)
          with ray_colour scattered (depth - 1) world s2 := {
          | (c, s3) => ((attenuation * c)%V, s3) }
      | (None, s2) => (black, s2) }
    | (None, s1) => (background r, s1) } }.
Proof. apply Z.leb_gt in Hdepth. lia. Qed.

(** [ray_colour] run on a call stack of [fuel] frames: every invocation
    takes one frame, and [None] is a stack that ran out. *)
Fixpoint ray_colour_fuel (fuel : nat) (r : ray) (depth : Z) (world : hittable)
    (s : St) : option (vec3 T * St) :=
  match fuel with
  | O => None
  | S fuel' =>
    if depth <=? 0 then Some (black, s)
    else
      match hit world r (Interval (literal 1 1000) infinity) s with
      | (Some rec, s1) =>
        match scatter (mat rec) r rec s1 with
        | (Some (attenuation, scattered), s2) =>
          match ray_colour_fuel fuel' scattered (depth - 1) world s2 with
          | Some (c, s3) => Some ((attenuation * c)%V, s3)
          | None => None
          end
        | (None, s2) => Some (black, s2)
        end
      | (None, s1) => Some (background r, s1)
      end
  end.

(** *** [ray_colour], unfolded once *)

Lemma ray_colour_eq (r : ray) (depth : Z) (world : hittable) (s : St) :
  ray_colour r depth world s =
  if depth <=? 0 then (black, s)
  else
    match hit world r (Interval (literal 1 1000) infinity) s with
    | (Some rec, s1) =>
      match scatter (mat rec) r rec s1 with
      | (Some (attenuation, scattered), s2) =>
        let (c, s3) := ray_colour scattered (depth - 1) world s2 in
        ((attenuation * c)%V, s3)
      | (None, s2) => (black, s2)
      end
    | (None, s1) => (background r, s1)
    end.
Proof.
  clear degrees_to_radians random_double random_in_unit_disk tan.
  funelim (ray_colour r depth world s); clear Heqcall;
    repeat match goal with
           | E : (depth <=? 0) = _ |- context [depth <=? 0] => rewrite E
           | E : hit ?a ?b ?c ?d = _ |- context [hit ?a ?b ?c ?d] => rewrite E
           | E : scatter ?a ?b ?c ?d = _ |- context [scatter ?a ?b ?c ?d] =>
               rewrite E
           | E : ray_colour ?a ?b ?c ?d = (_, _)
             |- context [ray_colour ?a ?b ?c ?d] => rewrite E
           end; reflexivity.
Qed.

Lemma ray_colour_done (r : ray) (depth : Z) (world : hittable) (s : St) :
  (depth <=? 0) = true -> ray_colour r depth world s = (black, s).
Proof. intros Hb. rewrite ray_colour_eq, Hb. reflexivity. Qed.

(** *** The viewport builder *)

Ltac initialize_cases c st Hinit :=
  unfold initialize in Hinit;
  destruct (to_int (of_int (image_width c) / aspect_ratio c)%S) as [n | ];
  [ injection Hinit as <- | discriminate Hinit ].



(** Whenever the quotient converts to [int], the image height is its floor
    clamped below by 1, and it is an [int]. *)
Lemma initialize_image_height (c : camera) (n : Z) :
  to_int (of_int (image_width c) / aspect_ratio c)%S = Some n ->
  exists st,
    initialize c = Some st
    /\ image_height st
       = Z.max 1 (sfloor (of_int (image_width c) / aspect_ratio c)%S)
    /\ 1 <= image_height st
    /\ in_int_range (image_height st) = true.
Proof.
  intros Hn. unfold initialize. rewrite Hn.
  eexists. split; [ reflexivity | ]. cbn [image_height].
  pose proof (to_int_range _ Hn) as Hr.
  pose proof (to_int_floor _ Hn) as Hf.
  destruct (Z.ltb_spec n 1) as [Hlt | Hge].
  - repeat split; try lia.
  - repeat split; try lia. exact Hr.
Qed.

(** C10.  The camera center that [initialize] derives is [lookfrom]: so a
    pinhole ray ([defocus_angle <= 0]) starts at [lookfrom], and the
    [center] of the upper-left-corner formula, from which [pixel00_loc]
    is computed, is [lookfrom]. *)
Theorem initialize_center_is_lookfrom (c : camera) (st : camera_state) :
  initialize c = Some st ->
  center st = lookfrom c
  /\ (forall i j s,
        (defocus_angle c <=? of_int 0)%S = true ->
        origin (fst (get_ray c st i j s)) = lookfrom c)
  /\ pixel00_loc st
     = (lookfrom c - focus_dist c *: w st
        - (viewport_width c st *: u st) /: of_int 2
        - (viewport_height c *: - v st) /: of_int 2
        + literal 5 10 *: (pixel_delta_u st + pixel_delta_v st))%V.
Proof.
  intros Hinit. initialize_cases c st Hinit.
  split; [ reflexivity | split ]; [ | reflexivity ].
  intros i j s Hpin. unfold get_ray, bind.
  destruct (pixel_sample_square _ s) as [sq s'].
  rewrite Hpin. reflexivity.
Qed.

(** *** The ray sampler *)

(** C7.  For every pixel [(i, j)] and every state of the generator, the
    direction of the sampled ray is [pixel_sample - ray_origin], not
    normalized, where [pixel_sample] is the pixel center
    [pixel00_loc + i * pixel_delta_u + j * pixel_delta_v] moved by the
    offset [px * pixel_delta_u + py * pixel_delta_v], and [px], [py] are
    [-0.5] plus the first and the second draw of [random_double]. *)
Theorem get_ray_direction (c : camera) (st : camera_state) (i j : Z) (s : St) :
  direction (fst (get_ray c st i j s))
  = (pixel00_loc st + of_int i *: pixel_delta_u st
                    + of_int j *: pixel_delta_v st
     + ((- literal 5 10 + fst (random_double s))%S *: pixel_delta_u st
        + (- literal 5 10 + fst (random_double (snd (random_double s))))%S
          *: pixel_delta_v st)
     - origin (fst (get_ray c st i j s)))%V.
Proof.
  unfold get_ray, pixel_sample_square, bind, ret.
  destruct (random_double s) as [d1 sa]; cbn [fst snd].
  destruct (random_double sa) as [d2 sb]; cbn [fst snd].
  destruct (defocus_angle c <=? of_int 0)%S.
  - reflexivity.
  - destruct (defocus_disk_sample st sb) as [o sc]. reflexivity.
Qed.

(** C8.  For every pixel and every state of the generator: with
    [defocus_angle <= 0] the ray starts at the camera center; with
    [defocus_angle > 0] it starts at
    [center + p[0] * defocus_disk_u + p[1] * defocus_disk_v], where [p] is
    the draw of [random_in_unit_disk] that follows the two draws of the
    pixel jitter. *)
Theorem get_ray_origin (c : camera) (st : camera_state) (i j : Z) (s : St) :
  ((defocus_angle c <=? of_int 0)%S = true ->
   origin (fst (get_ray c st i j s)) = center st)
  /\ ((of_int 0 <? defocus_angle c)%S = true ->
      origin (fst (get_ray c st i j s))
      = (center st
         + e0 (fst (random_in_unit_disk (snd (pixel_sample_square st s))))
           *: defocus_disk_u st
         + e1 (fst (random_in_unit_disk (snd (pixel_sample_square st s))))
           *: defocus_disk_v st)%V).
Proof.
  unfold get_ray, bind.
  destruct (pixel_sample_square st s) as [sq s']; cbn [fst snd].
  split; intros Hda.
  - rewrite Hda. reflexivity.
  - rewrite (sltb_sleb _ _ Hda).
    unfold defocus_disk_sample, bind, ret.
    destruct (random_in_unit_disk s') as [p s'']. reflexivity.
Qed.

(** *** The path integrator *)

(** C3.  With [depth <= 0] the integrator returns black for every ray and
    every scene; it makes no call to the scene and leaves the shared state
    as it found it. *)
Theorem ray_colour_depth_exhausted (r : ray) (depth : Z) (world : hittable)
    (s : St) :
  depth <= 0 -> ray_colour r depth world s = (black, s).
Proof.
  intros Hd. apply ray_colour_done. apply Z.leb_le. exact Hd.
Qed.

(** C1.  When [depth > 0] and the scene reports a hit [rec]: if the
    material of [rec] scatters, with attenuation [attenuation] and
    scattered ray [scattered], the result is the componentwise product of
    [attenuation] and of the colour of [scattered] integrated with
    [depth - 1]; if the material absorbs, the result is black. *)
Theorem ray_colour_scatter_or_absorb (r : ray) (depth : Z) (world : hittable)
    (s s1 : St) (rec : hit_record) :
  0 < depth ->
  hit world r (Interval (literal 1 1000) infinity) s = (Some rec, s1) ->
  (forall attenuation scattered s2,
     scatter (mat rec) r rec s1 = (Some (attenuation, scattered), s2) ->
     ray_colour r depth world s =
     ((attenuation * fst (ray_colour scattered (depth - 1) world s2))%V,
      snd (ray_colour scattered (depth - 1) world s2)))
  /\ (forall s2,
        scatter (mat rec) r rec s1 = (None, s2) ->
        ray_colour r depth world s = (black, s2)).
Proof.
  intros Hd Hhit.
  assert (Hb : (depth <=? 0) = false) by (apply Z.leb_gt; exact Hd).
  split.
  - intros attenuation scattered s2 Hsc.
    rewrite (ray_colour_eq r), Hb, Hhit, Hsc.
    destruct (ray_colour scattered (depth - 1) world s2) as [c s3].
    reflexivity.
  - intros s2 Hsc.
    rewrite (ray_colour_eq r), Hb, Hhit, Hsc. reflexivity.
Qed.

(** When [depth > 0] and the scene reports no hit, the result is the
    background gradient of the ray. *)
Lemma ray_colour_miss (r : ray) (depth : Z) (world : hittable) (s s1 : St) :
  0 < depth ->
  hit world r (Interval (literal 1 1000) infinity) s = (None, s1) ->
  ray_colour r depth world s = (background r, s1).
Proof.
  intros Hd Hhit.
  assert (Hb : (depth <=? 0) = false) by (apply Z.leb_gt; exact Hd).
  rewrite ray_colour_eq, Hb, Hhit. reflexivity.
Qed.

Lemma ray_colour_fuel_frame (fuel : nat) (r : ray) (depth : Z)
    (world : hittable) (s : St) :
  ray_colour_fuel (S fuel) r depth world s =
  if depth <=? 0 then Some (black, s)
  else
    match hit world r (Interval (literal 1 1000) infinity) s with
    | (Some rec, s1) =>
      match scatter (mat rec) r rec s1 with
      | (Some (attenuation, scattered), s2) =>
        match ray_colour_fuel fuel scattered (depth - 1) world s2 with
        | Some (c, s3) => Some ((attenuation * c)%V, s3)
        | None => None
        end
      | (None, s2) => Some (black, s2)
      end
    | (None, s1) => Some (background r, s1)
    end.
Proof. reflexivity. Qed.

(** C9.  [ray_colour] is a total function (its definition is by
    well-founded recursion on [depth]), and a call stack of
    [1 + max depth 0] frames is enough to run it: the recursive calls,
    each made with [depth - 1] after [depth <= 0] has failed, nest at most
    [depth] deep. *)
Theorem ray_colour_recursion_bounded (r : ray) (depth : Z) (world : hittable)
    (s : St) (spare : nat) :
  ray_colour_fuel (S (Z.to_nat depth) + spare) r depth world s =
  Some (ray_colour r depth world s).
Proof.
  remember (Z.to_nat depth) as n eqn:Hn.
  revert r depth s Hn.
  induction n as [ | n IH ]; intros r depth s Hn;
    rewrite ray_colour_eq;
    change (S ?k + spare)%nat with (S (k + spare));
    rewrite ray_colour_fuel_frame.
  - assert (Hb : (depth <=? 0) = true) by (apply Z.leb_le; lia).
    rewrite Hb. reflexivity.
  - assert (Hb : (depth <=? 0) = false) by (apply Z.leb_gt; lia).
    rewrite Hb.
    destruct (hit world r _ s) as [[rec | ] s1]; [ | reflexivity ].
    destruct (scatter (mat rec) r rec s1) as [[[attenuation scattered] | ] s2];
      [ | reflexivity ].
    rewrite (IH scattered (depth - 1) s2) by lia.
    destruct (ray_colour scattered (depth - 1) world s2) as [c s3].
    reflexivity.
Qed.

(** X10.  The bound on the call stack is reached: in a scene where every
    ray hits and every material scatters, [depth] frames (or fewer) are
    not enough, the run needs the frame of the invocation that finds
    [depth <= 0]. *)
Lemma ray_colour_fuel_short (world : hittable) :
  (forall r s, exists rec s1,
      hit world r (Interval (literal 1 1000) infinity) s = (Some rec, s1)) ->
  (forall m r rec s, exists attenuation scattered s2,
      scatter m r rec s = (Some (attenuation, scattered), s2)) ->
  forall fuel r depth s,
    (fuel <= Z.to_nat depth)%nat ->
    ray_colour_fuel fuel r depth world s = None.
Proof.
  intros Hhit Hsc fuel.
  induction fuel as [ | fuel IH ]; intros r depth s Hfuel; [ reflexivity | ].
  rewrite ray_colour_fuel_frame.
  assert (Hb : (depth <=? 0) = false) by (apply Z.leb_gt; lia).
  rewrite Hb.
  destruct (Hhit r s) as (rec & s1 & ->).
  destruct (Hsc (mat rec) r rec s1) as (attenuation & scattered & s2 & ->).
  rewrite IH by lia. reflexivity.
Qed.

End Camera.

Arguments ray T : clear implicits.
Arguments interval T : clear implicits.
Arguments hit_record T material : clear implicits.
Arguments hittable T material St : clear implicits.
Arguments camera T : clear implicits.
Arguments camera_state T : clear implicits.

(** ** What the path integrator asks the scene *)

Section SceneQueries.

Context {T : Type} `{Scalar T}.
Variables material St : Type.
Variable scatter :
  material -> ray T -> hit_record T material -> M St (option (vec3 T * ray T)).
Variable infinity : T.

(** One call [world.hit(r, ray_t, rec)], by its arguments. *)
Definition query : Type := (ray T * interval T)%type.

(** A scene that answers as [world] does and notes every call it receives
    in a log kept beside the shared state. *)
Definition recording (world : hittable T material St)
  : hittable T material (St * list query) :=
  Hittable (fun r ray_t sl =>
              let (answer, s') := hit world r ray_t (fst sl) in
              (answer, (s', snd sl ++ [(r, ray_t)]))).

(** A computation on the shared state, run beside the log. *)
Definition beside_log {A} (m : M St A) : M (St * list query) A :=
  fun sl => let (a, s') := m (fst sl) in (a, (s', snd sl)).

(** The calls to the scene that [ray_colour] makes from state [s]. *)
Definition queries (r : ray T) (depth : Z) (world : hittable T material St)
    (s : St) : list query :=
  snd (snd (ray_colour (fun m r' rec => beside_log (scatter m r' rec))
              infinity r depth (recording world) (s, []))).

(** Recording changes neither the colour nor the shared state, and only
    appends to the log. *)
Lemma ray_colour_recording (r : ray T) (depth : Z)
    (world : hittable T material St) (s : St) (log : list query) :
  ray_colour (fun m r' rec => beside_log (scatter m r' rec))
    infinity r depth (recording world) (s, log)
  = (fst (ray_colour scatter infinity r depth world s),
     (snd (ray_colour scatter infinity r depth world s),
      log ++ queries r depth world s)).
Proof.
  unfold queries.
  remember (Z.to_nat depth) as n eqn:Hn.
  revert r depth s log Hn.
  induction n as [ | n IH ]; intros r depth s log Hn.
  - assert (Hb : (depth <=? 0) = true) by (apply Z.leb_le; lia).
    rewrite !ray_colour_done by exact Hb.
    cbn [fst snd]. rewrite app_nil_r. reflexivity.
  - assert (Hb : (depth <=? 0) = false) by (apply Z.leb_gt; lia).
    rewrite (ray_colour_eq _ _ r depth (recording world)).
    rewrite (ray_colour_eq _ _ r depth (recording world) (s, [])).
    rewrite (ray_colour_eq scatter infinity r depth world s).
    rewrite Hb. cbn [hit recording fst snd].
    destruct (hit world r _ s) as [[rec | ] s1]; cbn [fst snd app];
      [ | reflexivity ].
    unfold beside_log at 1 3. cbn [fst snd].
    destruct (scatter (mat rec) r rec s1) as [[[attenuation scattered] | ] s2];
      cbn [fst snd]; [ | reflexivity ].
    rewrite (IH scattered (depth - 1) s2 (log ++ [(r, _)])) by lia.
    rewrite (IH scattered (depth - 1) s2 [(r, _)]) by lia.
    destruct (ray_colour scatter infinity scattered (depth - 1) world s2)
      as [c s3].
    cbn [fst snd]. rewrite <- app_assoc. reflexivity.
Qed.

(** C4.  Every call to the scene that [ray_colour] makes carries the
    interval [(0.001, infinity)], so never a lower bound below [0.001];
    with [depth > 0] the first call is made for the ray itself, and with
    [depth <= 0] no call is made. *)
Theorem ray_colour_queries_interval (r : ray T) (depth : Z)
    (world : hittable T material St) (s : St) :
  Forall (fun q : query => snd q = Interval (literal 1 1000) infinity)
    (queries r depth world s)
  /\ (0 < depth ->
      exists rest,
        queries r depth world s
        = (r, Interval (literal 1 1000) infinity) :: rest)
  /\ (depth <= 0 -> queries r depth world s = []).
Proof.
  split; [ | split ].
  - unfold queries.
    remember (Z.to_nat depth) as n eqn:Hn.
    revert r depth s Hn.
    induction n as [ | n IH ]; intros r depth s Hn.
    + rewrite ray_colour_done by (apply Z.leb_le; lia). constructor.
    + assert (Hb : (depth <=? 0) = false) by (apply Z.leb_gt; lia).
      rewrite ray_colour_eq, Hb. cbn [hit recording fst snd app].
      destruct (hit world r _ s) as [[rec | ] s1]; cbn [fst snd];
        [ | repeat constructor ].
      unfold beside_log at 1. cbn [fst snd].
      destruct (scatter (mat rec) r rec s1)
        as [[[attenuation scattered] | ] s2];
        cbn [fst snd]; [ | repeat constructor ].
      rewrite ray_colour_recording. cbn [fst snd app].
      constructor; [ reflexivity | ].
      apply IH. lia.
  - intros Hd. unfold queries.
    assert (Hb : (depth <=? 0) = false) by (apply Z.leb_gt; lia).
    rewrite ray_colour_eq, Hb. cbn [hit recording fst snd app].
    destruct (hit world r _ s) as [[rec | ] s1]; cbn [fst snd];
      [ | eexists; reflexivity ].
    unfold beside_log at 1. cbn [fst snd].
    destruct (scatter (mat rec) r rec s1) as [[[attenuation scattered] | ] s2];
      cbn [fst snd]; [ | eexists; reflexivity ].
    rewrite ray_colour_recording. cbn [fst snd app].
    eexists; reflexivity.
  - intros Hd. unfold queries.
    rewrite ray_colour_done by (apply Z.leb_le; exact Hd). reflexivity.
Qed.

(** X9.  [ray_colour] asks the scene at most [max depth 0] times: every
    invocation with [depth > 0] asks once, and the invocations form a
    chain. *)
Lemma queries_at_most_depth (r : ray T) (depth : Z)
    (world : hittable T material St) (s : St) :
  (List.length (queries r depth world s) <= Z.to_nat depth)%nat.
Proof.
  unfold queries.
  remember (Z.to_nat depth) as n eqn:Hn.
  revert r depth s Hn.
  induction n as [ | n IH ]; intros r depth s Hn.
  - rewrite ray_colour_done by (apply Z.leb_le; lia). apply Nat.le_refl.
  - assert (Hb : (depth <=? 0) = false) by (apply Z.leb_gt; lia).
    rewrite ray_colour_eq, Hb. cbn [hit recording fst snd app].
    destruct (hit world r _ s) as [[rec | ] s1]; cbn [fst snd];
      [ | cbn [List.length]; lia ].
    unfold beside_log at 1. cbn [fst snd].
    destruct (scatter (mat rec) r rec s1) as [[[attenuation scattered] | ] s2];
      cbn [fst snd]; [ | cbn [List.length]; lia ].
    rewrite ray_colour_recording. cbn [fst snd app List.length].
    apply le_n_S. apply IH. lia.
Qed.

End SceneQueries.

(** ** At binary64 *)

Section AtBinary64.

Import Binary64.

(** The decimal literals of [camera.h], as [literal] reads them. *)
Lemma literals_binary64 :
  (literal 5 10 : float) = 0.5%float
  /\ (literal 7 10 : float) = 0.7%float
  /\ (literal 1 1000 : float) = 0.001%float
  /\ (of_int 0 : float) = 0%float
  /\ (of_int 1 : float) = 1%float
  /\ (of_int 2 : float) = 2%float.
Proof. repeat split. Qed.

Variables material St : Type.
Variable scatter :
  material -> ray float -> hit_record float material
  -> M St (option (vec3 float * ray float)).
Variable infinity : float.

(** C2.  When [depth > 0] and the scene reports no hit for the ray, the
    integrator returns the gradient [(1 - a) * (1,1,1) + a * (0.5,0.7,1.0)]
    with [a = 0.5 * (y + 1)], [y] the vertical component of the normalized
    direction.  In particular the result is exactly [(0.5, 0.7, 1.0)] when
    [y] is [1] (normalized direction [(0,1,0)]) and exactly [(1, 1, 1)]
    when [y] is [-1] (normalized direction [(0,-1,0)]). *)
Theorem ray_colour_background (r : ray float) (depth : Z)
    (world : hittable float material St) (s s1 : St) :
  0 < depth ->
  hit world r (Interval 0.001%float infinity) s = (None, s1) ->
  ray_colour scatter infinity r depth world s
  = (((1 - 0.5 * (vec_y (unit_vector (direction r)) + 1))%float
       *: Vec3 1%float 1%float 1%float
      + (0.5 * (vec_y (unit_vector (direction r)) + 1))%float
        *: Vec3 0.5%float 0.7%float 1%float)%V, s1)
  /\ (vec_y (unit_vector (direction r)) = 1%float ->
      ray_colour scatter infinity r depth world s
      = (Vec3 0.5%float 0.7%float 1%float, s1))
  /\ (vec_y (unit_vector (direction r)) = (-1)%float ->
      ray_colour scatter infinity r depth world s
      = (Vec3 1%float 1%float 1%float, s1)).
Proof.
  intros Hd Hhit.
  change 0.001%float with (literal 1 1000 : float) in Hhit.
  rewrite (ray_colour_miss scatter infinity r world s Hd Hhit).
  unfold background. split; [ reflexivity | split ]; intros ->; reflexivity.
Qed.

End AtBinary64.

(** ** In exact arithmetic *)

(** Unfolds the vector operations down to the operations of [R]. *)
Ltac reals :=
  cbv [sadd ssub smul sdiv sneg ssqrt of_int sleb sltb sfloor to_int
       Exact.R_scalar literal
       vadd vsub vneg vmul vscale vdiv dot cross length_squared length
       unit_vector vec_x vec_y vec_z black white sky_blue] in *;
  cbn [e0 e1 e2] in *.

Section InExactArithmetic.

Import Exact.
Local Open Scope R_scope.

(** *** Vector algebra *)















(** *** The conversion to [int] *)


Lemma truncate_IZR (n : Z) : truncate (IZR n) = n.
Proof.
  unfold truncate. destruct (Rle_dec 0 (IZR n)); [ apply ZfloorZ | ].
  unfold Zceil. rewrite ZfloorNZ. lia.
Qed.

Lemma R_to_int_IZR (n : Z) :
  R_to_int (IZR n) = if in_int_range n then Some n else None.
Proof. unfold R_to_int. rewrite truncate_IZR. reflexivity. Qed.

(** *** The viewport builder *)

Variables degrees_to_radians tan : R -> R.



(** *** The ray sampler *)

Lemma vadd_assoc (a b c : vec3 R) : (a + (b + c))%V = (a + b + c)%V.
Proof. destruct a, b, c. reals. f_equal; ring. Qed.

(** In exact arithmetic the sum of [get_ray_direction] can be read from
    left to right: [pixel00_loc + i * pixel_delta_u + j * pixel_delta_v
    + px * pixel_delta_u + py * pixel_delta_v]. *)
Lemma get_ray_direction_exact (St : Type) (random_double : M St R)
    (random_in_unit_disk : M St (vec3 R)) (c : camera R)
    (st : camera_state R) (i j : Z) (s : St) :
  direction (fst (get_ray random_double random_in_unit_disk c st i j s))
  = (pixel00_loc st + IZR i *: pixel_delta_u st + IZR j *: pixel_delta_v st
     + (- (5 / 10) + fst (random_double s))%R *: pixel_delta_u st
     + (- (5 / 10) + fst (random_double (snd (random_double s))))%R
       *: pixel_delta_v st
     - origin (fst (get_ray random_double random_in_unit_disk c st i j s)))%V.
Proof.
  unfold get_ray, pixel_sample_square, bind, ret.
  destruct (random_double s) as [d1 sa]. cbn [fst snd].
  destruct (random_double sa) as [d2 sb]. cbn [fst snd].
  destruct (defocus_angle c <=? of_int 0)%S.
  - cbn [fst direction origin]. rewrite vadd_assoc. reflexivity.
  - destruct (defocus_disk_sample random_in_unit_disk st sb) as [o sc].
    cbn [fst direction origin]. rewrite vadd_assoc. reflexivity.
Qed.

(** *** The path integrator *)




Variables material St : Type.
Variable scatter :
  material -> ray R -> hit_record R material -> M St (option (vec3 R * ray R)).
Variable infinity : R.

(** The counterpart of [ray_colour_background] in exact arithmetic. *)
Lemma ray_colour_background_exact (r : ray R) (depth : Z)
    (world : hittable R material St) (s s1 : St) :
  (0 < depth)%Z ->
  hit world r (Interval (1 / 1000) infinity) s = (None, s1) ->
  (vec_y (unit_vector (direction r)) = 1 ->
   ray_colour scatter infinity r depth world s = (Vec3 0.5 0.7 1, s1))
  /\ (vec_y (unit_vector (direction r)) = -1 ->
      ray_colour scatter infinity r depth world s = (Vec3 1 1 1, s1)).
Proof.
  intros Hd Hhit.
  change (1 / 1000) with (literal 1 1000 : R) in Hhit.
  rewrite (ray_colour_miss scatter infinity r world s Hd Hhit).
  unfold background.
  split; intros ->; reals; f_equal; f_equal; lra.
Qed.


End InExactArithmetic.

(** ** The members [initialize] sets, field by field *)

Section ViewportFields.

Context {T : Type} `{Scalar T}.
Variables degrees_to_radians tan : T -> T.

(** The local [defocus_radius] of [initialize], and the local
    [pixel_center] of [get_ray]. *)
Definition defocus_radius (c : camera T) : T :=
  (focus_dist c * tan (degrees_to_radians (defocus_angle c / of_int 2)))%S.

Definition pixel_center (st : camera_state T) (i j : Z) : vec3 T :=
  (pixel00_loc st + of_int i *: pixel_delta_u st
                  + of_int j *: pixel_delta_v st)%V.


Lemma initialize_converts (c : camera T) (st : camera_state T) :
  initialize degrees_to_radians tan c = Some st ->
  exists n,
    to_int (of_int (image_width c) / aspect_ratio c)%S = Some n
    /\ image_height st = if n <? 1 then 1 else n.
Proof.
  unfold initialize.
  destruct (to_int (of_int (image_width c) / aspect_ratio c)%S) as [n | ];
    [ | discriminate ].
  intros [= <-]. exists n. split; reflexivity.
Qed.

(** X16.  In every arithmetic, binary64 included: whenever [initialize]
    is defined, the image height it sets is a positive [int],
    [1 <= image_height <= INT_MAX], and it is [max 1 (floor q)] for the
    quotient [q = image_width / aspect_ratio] as the arithmetic computes
    it; so the loops of [render] over the rows never run on a zero or
    negative bound. *)
Theorem image_height_is_positive_int (c : camera T) (st : camera_state T) :
  initialize degrees_to_radians tan c = Some st ->
  1 <= image_height st <= INT_MAX
  /\ image_height st
     = Z.max 1 (sfloor (of_int (image_width c) / aspect_ratio c)%S).
Proof.
  intros Hinit. destruct (initialize_converts _ Hinit) as (n & Hn & Hh).
  pose proof (to_int_range _ Hn) as Hr.
  pose proof (to_int_floor _ Hn) as Hf.
  unfold in_int_range in Hr. apply andb_prop in Hr as [_ Hmax].
  apply Z.leb_le in Hmax. rewrite Hh.
  destruct (Z.ltb_spec n 1); unfold INT_MAX in *; lia.
Qed.

End ViewportFields.

(** ** The draws of the ray sampler *)

Section Draws.

Context {T : Type} `{Scalar T}.
Variable St : Type.
Variable random_double : M St T.
Variable random_in_unit_disk : M St (vec3 T).

(** X13.  [get_ray] leaves the generator in the state that two draws of
    [random_double] (the jitter of [pixel_sample_square]) lead to, followed
    by one draw of [random_in_unit_disk] when [defocus_angle > 0]; a
    pinhole camera never draws from the disk, and the pixel [(i, j)] has no
    part in what is drawn. *)
Theorem get_ray_draws (c : camera T) (st : camera_state T) (i j : Z) (s : St) :
  snd (get_ray random_double random_in_unit_disk c st i j s)
  = if (defocus_angle c <=? of_int 0)%S
    then snd (random_double (snd (random_double s)))
    else snd (random_in_unit_disk (snd (random_double (snd (random_double s))))).
Proof.
  unfold get_ray, pixel_sample_square, defocus_disk_sample, bind, ret.
  destruct (random_double s) as [d1 sa]. cbn [snd].
  destruct (random_double sa) as [d2 sb]. cbn [snd].
  destruct (defocus_angle c <=? of_int 0)%S; [ reflexivity | ].
  destruct (random_in_unit_disk sb) as [p sc]. reflexivity.
Qed.

End Draws.

(** ** The driver [render] *)

Section Render.

Import String Ascii.

Context {T : Type} `{Scalar T}.
Variables material St : Type.
Variable scatter :
  material -> ray T -> hit_record T material -> M St (option (vec3 T * ray T)).
Variable infinity : T.
Variable degrees_to_radians : T -> T.
Variable random_double : M St T.
Variable random_in_unit_disk : M St (vec3 T).
Variable tan : T -> T.

(** *** The two streams

    What [render] inserts into [std::cout] and [std::clog], one item for
    every [<<]: a string literal, an [int], a character, [std::flush].
    [write_colour] belongs to [colour.h], not among the sources: its call
    is recorded with the two arguments it receives after the stream. *)
Inductive item : Type :=
| Text (s : String.string)
| Int (n : Z)
| Char (c : Ascii.ascii)
| Flush
| Write_colour (pixel_colour : vec3 T) (samples : Z).

Record streams : Type := Streams { cout : list item; clog : list item }.

Definition to_cout (out : streams) (items : list item) : streams :=
  Streams (cout out ++ items) (clog out).

Definition to_clog (out : streams) (items : list item) : streams :=
  Streams (cout out) (clog out ++ items).

(** The escapes [\n] and [\r]. *)
Definition newline : String.string :=
  String.String (Ascii.ascii_of_nat 10) String.EmptyString.

Definition carriage_return (s : String.string) : String.string :=
  String.String (Ascii.ascii_of_nat 13) s.

(** *** The loops

    [for (int k = 0; k < n; ++k) body]: [for_from count k] runs the body
    [count] times from the index [k] on; the accumulator [x] and the shared
    state are threaded through. *)
Fixpoint for_from {X} (count : nat) (k : Z) (body : Z -> X -> M St X) (x : X)
  : M St X :=
  match count with
  | O => ret x
  | S count' => bind (body k x) (fun x' => for_from count' (k + 1) body x')
  end.

Definition for_int {X} (n : Z) (body : Z -> X -> M St X) (x : X) : M St X :=
  for_from (Z.to_nat n) 0 body x.

(** The innermost loop, over the samples: the value of the local
    [pixel_colour] when [write_colour] receives it. *)
Definition pixel_colour (c : camera T) (st : camera_state T)
    (world : hittable T material St) (i j : Z) : M St (vec3 T) :=
  for_int (samples_per_pixel c)
    (fun _ pixel_colour =>
       bind (get_ray random_double random_in_unit_disk c st i j) (fun r =>
       bind (ray_colour scatter infinity r (max_depth c) world) (fun sample =>
       ret (pixel_colour + sample)%V)))
    black.

(** The three insertions of text: the header of the image on [cout],
    the progress report and the farewell on [clog]. *)
Definition header (c : camera T) (st : camera_state T) : list item :=
  [Text (String.append "P3"%string newline); Int (image_width c);
   Char " "%char; Int (image_height st);
   Text (String.append newline (String.append "255"%string newline))].

Definition scanlines_remaining (st : camera_state T) (j : Z) : list item :=
  [Text (carriage_return "Scanlines remaining: "%string);
   Int (image_height st - j); Char " "%char; Flush].

Definition done : list item :=
  [Text (carriage_return
           (String.append "Done.                 "%string newline))].

(** [render(world)].  [None] is the undefined conversion in
    [initialize]. *)
Definition render (c : camera T) (world : hittable T material St)
  : M St (option streams) :=
  match initialize degrees_to_radians tan c with
  | None => ret None
  | Some st =>
    let out := to_cout (Streams [] []) (header c st) in
    bind (for_int (image_height st)
            (fun j out =>
               let out := to_clog out (scanlines_remaining st j) in
               for_int (image_width c)
                 (fun i out =>
                    bind (pixel_colour c st world i j) (fun p =>
                    ret (to_cout out [Write_colour p (samples_per_pixel c)])))
                 out)
            out)
      (fun out => ret (Some (to_clog out done)))
  end.

(** The pixels of an image in the order of the two loops: row after row
    from the top, each from left to right. *)
Definition raster (c : camera T) (st : camera_state T) : list (Z * Z) :=
  flat_map (fun j => map (fun i => (Z.of_nat i, Z.of_nat j))
                       (seq 0 (Z.to_nat (image_width c))))
    (seq 0 (Z.to_nat (image_height st))).

(** *** Reasoning on the loops *)

Lemma for_int_none {X} (n : Z) (body : Z -> X -> M St X) (x : X) (s : St) :
  n <= 0 -> for_int n body x s = (x, s).
Proof.
  intros Hn. unfold for_int.
  replace (Z.to_nat n) with 0%nat by lia. reflexivity.
Qed.

(** A loop invariant [P n x s]: after [n] rounds the accumulator is [x]
    and the state is [s]. *)
Lemma for_from_invariant {X} (body : Z -> X -> M St X) (count : nat) :
  forall (P : nat -> X -> St -> Prop) (k : Z) (x : X) (s : St),
    P 0%nat x s ->
    (forall n x s, (n < count)%nat -> P n x s ->
       P (S n) (fst (body (k + Z.of_nat n) x s))
               (snd (body (k + Z.of_nat n) x s))) ->
    P count (fst (for_from count k body x s))
            (snd (for_from count k body x s)).
Proof.
  induction count as [ | count IH ]; intros P k x s H0 Hstep.
  - exact H0.
  - cbn [for_from]. unfold bind.
    pose proof (Hstep 0%nat x s ltac:(lia) H0) as H1.
    rewrite Z.add_0_r in H1.
    destruct (body k x s) as [x' s']. cbn [fst snd] in H1.
    apply (IH (fun n => P (S n)) (k + 1) x' s' H1).
    intros n y t Hn Hy.
    replace (k + 1 + Z.of_nat n) with (k + Z.of_nat (S n)) by lia.
    apply Hstep; [ lia | exact Hy ].
Qed.

Lemma Forall2_snoc {A B} (P : A -> B -> Prop) (l : list A) (l' : list B)
    (a : A) (b : B) :
  Forall2 P l l' -> P a b -> Forall2 P (l ++ [a]) (l' ++ [b]).
Proof.
  intros Hl Hab. apply Forall2_app; [ exact Hl | repeat constructor; exact Hab ].
Qed.

Lemma Forall2_right {A B} (P : B -> Prop) (l : list A) (l' : list B) :
  Forall2 (fun _ b => P b) l l' -> Forall P l'.
Proof. induction 1; constructor; assumption. Qed.

Section Shape.

Variables (c : camera T) (st : camera_state T) (world : hittable T material St).
Hypothesis Hinit : initialize degrees_to_radians tan c = Some st.

(** What is known of one pixel, [Q i j p], and of the shared state, [R s],
    provided the sample loop keeps them. *)
Variable Q : Z -> Z -> vec3 T -> Prop.
Variable R : St -> Prop.
Hypothesis pixel_ok :
  forall i j s, R s ->
    Q i j (fst (pixel_colour c st world i j s))
    /\ R (snd (pixel_colour c st world i j s)).

(** The two streams in full: on [cout] the header and one [write_colour]
    for every pixel of the raster, in order; on [clog] the countdown and
    the farewell. *)
Lemma render_shape (s : St) :
  R s ->
  exists out s' pixels,
    render c world s = (Some out, s')
    /\ R s'
    /\ cout out
       = header c st
         ++ map (fun p => Write_colour p (samples_per_pixel c)) pixels
    /\ Forall2 (fun ij p => Q (fst ij) (snd ij) p) (raster c st) pixels
    /\ clog out
       = flat_map (fun j => scanlines_remaining st (Z.of_nat j))
           (seq 0 (Z.to_nat (image_height st)))
         ++ done.
Proof.
  intros Hs. unfold render. rewrite Hinit. unfold bind at 1. unfold for_int at 1.
  set (row := fun (j : Z) (out : streams) => _).
  set (out0 := to_cout (Streams [] []) (header c st)).
  set (width := Z.to_nat (image_width c)).
  pose (line := fun j : nat =>
                  map (fun i => (Z.of_nat i, Z.of_nat j)) (seq 0 width)).
  pose (P := fun (n : nat) (out : streams) (s : St) =>
               R s
               /\ exists pixels,
                   cout out
                   = header c st
                     ++ map (fun p => Write_colour p (samples_per_pixel c))
                          pixels
                   /\ Forall2 (fun ij p => Q (fst ij) (snd ij) p)
                        (flat_map line (seq 0 n)) pixels
                   /\ clog out
                      = flat_map (fun j => scanlines_remaining st (Z.of_nat j))
                          (seq 0 n)).
  assert (Hloop : P (Z.to_nat (image_height st))
                    (fst (for_from (Z.to_nat (image_height st)) 0 row out0 s))
                    (snd (for_from (Z.to_nat (image_height st)) 0 row out0 s))).
  { apply for_from_invariant.
    - split; [ exact Hs | ]. exists []. cbn. repeat split; constructor.
    - intros n out t _ (Ht & pixels & Hcout & HQ & Hclog).
      unfold row, for_int. fold width.
      set (out1 := to_clog out (scanlines_remaining st (0 + Z.of_nat n))).
      set (put := fun (i : Z) (out : streams) => _).
      pose (P' := fun (m : nat) (out : streams) (s : St) =>
                    R s
                    /\ exists ps,
                        cout out
                        = cout out1
                          ++ map (fun p => Write_colour p (samples_per_pixel c))
                               ps
                        /\ Forall2 (fun ij p => Q (fst ij) (snd ij) p)
                             (map (fun i => (Z.of_nat i, Z.of_nat n)) (seq 0 m))
                             ps
                        /\ clog out = clog out1).
      assert (Hrow : P' width (fst (for_from width 0 put out1 t))
                        (snd (for_from width 0 put out1 t))).
      { apply for_from_invariant.
        - split; [ exact Ht | ]. exists []. cbn. rewrite app_nil_r.
          repeat split; constructor.
        - intros m o t' _ (Ht' & ps & Hc & Hq & Hg).
          unfold put, bind, ret.
          destruct (pixel_ok (0 + Z.of_nat m) (0 + Z.of_nat n) Ht') as [Hq1 Hr1].
          destruct (pixel_colour c st world _ _ t') as [p t'']. cbn [fst snd] in *.
          split; [ exact Hr1 | ]. exists (ps ++ [p]).
          rewrite map_app, app_assoc, <- Hc. cbn [to_cout cout clog map].
          repeat split; try assumption.
          rewrite seq_S, map_app. cbn [map Nat.add].
          apply Forall2_snoc; [ exact Hq | exact Hq1 ]. }
      destruct Hrow as (Hr & ps & Hc & Hq & Hg).
      split; [ exact Hr | ]. exists (pixels ++ ps).
      rewrite Hc, Hg. unfold out1. cbn [cout clog to_clog].
      rewrite Hcout, Hclog, map_app, <- app_assoc.
      repeat split.
      + rewrite seq_S, flat_map_app. cbn [flat_map Nat.add]. rewrite app_nil_r.
        apply Forall2_app; assumption.
      + rewrite seq_S, flat_map_app. cbn [flat_map]. rewrite app_nil_r.
        reflexivity. }
  destruct (for_from (Z.to_nat (image_height st)) 0 row out0 s) as [out s'].
  cbn [fst snd] in Hloop. destruct Hloop as (Hr & pixels & Hc & Hq & Hg).
  exists (to_clog out done), s', pixels. unfold ret. cbn [cout clog to_clog].
  rewrite Hg. repeat split; assumption.
Qed.

End Shape.

(** X1.  Whenever [initialize] is defined, [render] returns, and what it
    has written to [std::cout] is the header [P3], [image_width],
    [image_height], [255] followed by one call of [write_colour] for every
    pixel, [image_height * image_width] of them and nothing else, in
    row-major order from the top-left pixel; each call carries the sum
    the sample loop has built for its pixel [(i, j)] and the sample
    count [samples_per_pixel]. *)
Theorem render_writes_raster (c : camera T) (st : camera_state T)
    (world : hittable T material St) (s : St) :
  initialize degrees_to_radians tan c = Some st ->
  exists out s' pixels,
    render c world s = (Some out, s')
    /\ cout out
       = header c st
         ++ map (fun p => Write_colour p (samples_per_pixel c)) pixels
    /\ Forall2 (fun ij p =>
                  exists t, p = fst (pixel_colour c st world (fst ij) (snd ij) t))
         (raster c st) pixels
    /\ List.length pixels
       = (Z.to_nat (image_height st) * Z.to_nat (image_width c))%nat.
Proof.
  intros Hinit.
  destruct (@render_shape c st world Hinit
              (fun i j p => exists t, p = fst (pixel_colour c st world i j t))
              (fun _ => True)
              (fun i j t _ => conj (ex_intro _ t eq_refl) I) s I)
    as (out & s' & pixels & Hrender & _ & Hcout & Hpixels & _).
  exists out, s', pixels. repeat split; try assumption.
  rewrite <- (Forall2_length Hpixels). unfold raster.
  rewrite flat_map_constant_length with (c := Z.to_nat (image_width c)).
  - rewrite length_seq. reflexivity.
  - intros j _. rewrite length_map, length_seq. reflexivity.
Qed.

(** X2.  Whenever [initialize] is defined, what [render] has written to
    [std::clog] is, for every row [j] from [0] on, the text
    [\rScanlines remaining: ], the number [image_height - j], a space and
    a flush, and after the last row the text [\rDone.] with its padding
    and a newline: the countdown runs from [image_height] down to [1]. *)
Theorem render_reports_countdown (c : camera T) (st : camera_state T)
    (world : hittable T material St) (s : St) :
  initialize degrees_to_radians tan c = Some st ->
  exists out s',
    render c world s = (Some out, s')
    /\ clog out
       = flat_map (fun j => scanlines_remaining st (Z.of_nat j))
           (seq 0 (Z.to_nat (image_height st)))
         ++ done.
Proof.
  intros Hinit.
  destruct (@render_shape c st world Hinit (fun _ _ _ => True) (fun _ => True)
              (fun _ _ _ _ => conj I I) s I)
    as (out & s' & pixels & Hrender & _ & _ & _ & Hclog).
  exists out, s'. split; assumption.
Qed.

(** X3.  With [samples_per_pixel <= 0] the sample loop never runs:
    [render] traces no ray, leaves the generator and the scene as they
    were, and hands [write_colour] the colour [(0,0,0)] for every pixel,
    together with that non-positive sample count. *)
Theorem render_without_samples (c : camera T) (st : camera_state T)
    (world : hittable T material St) (s : St) :
  initialize degrees_to_radians tan c = Some st ->
  samples_per_pixel c <= 0 ->
  exists out pixels,
    render c world s = (Some out, s)
    /\ cout out
       = header c st
         ++ map (fun p => Write_colour p (samples_per_pixel c)) pixels
    /\ Forall (fun p => p = black) pixels.
Proof.
  intros Hinit Hspp.
  assert (Hpixel : forall i j t, t = s ->
            fst (pixel_colour c st world i j t) = black
            /\ snd (pixel_colour c st world i j t) = s).
  { intros i j t ->. unfold pixel_colour.
    rewrite for_int_none by exact Hspp. split; reflexivity. }
  destruct (@render_shape c st world Hinit (fun _ _ p => p = black)
              (fun t => t = s) Hpixel s eq_refl)
    as (out & s' & pixels & Hrender & -> & Hcout & Hpixels & _).
  exists out, pixels. repeat split; try assumption.
  exact (Forall2_right _ Hpixels).
Qed.

(** X4.  With [max_depth <= 0] every sample is black, so every pixel that
    [render] hands to [write_colour] is [(0,0,0)], whatever the scene; the
    arithmetic is asked only that [0 + 0] is [0]. *)
Theorem render_without_bounces (c : camera T) (st : camera_state T)
    (world : hittable T material St) (s : St) :
  initialize degrees_to_radians tan c = Some st ->
  (of_int 0 + of_int 0)%S = of_int 0 ->
  max_depth c <= 0 ->
  exists out s' pixels,
    render c world s = (Some out, s')
    /\ cout out
       = header c st
         ++ map (fun p => Write_colour p (samples_per_pixel c)) pixels
    /\ Forall (fun p => p = black) pixels.
Proof.
  intros Hinit Hzero Hdepth.
  assert (Hpixel : forall i j t, True ->
            fst (pixel_colour c st world i j t) = black /\ True).
  { intros i j t _. split; [ | exact I ]. unfold pixel_colour, for_int.
    apply for_from_invariant with (P := fun _ p _ => p = black);
      [ reflexivity | ].
    intros n p t' _ ->. unfold bind, ret.
    destruct (get_ray random_double random_in_unit_disk c st i j t') as [r t1].
    rewrite ray_colour_done by (apply Z.leb_le; exact Hdepth).
    cbn [fst]. unfold vadd, black. cbn [e0 e1 e2]. rewrite Hzero. reflexivity. }
  destruct (@render_shape c st world Hinit (fun _ _ p => p = black)
              (fun _ => True) Hpixel s I)
    as (out & s' & pixels & Hrender & _ & Hcout & Hpixels & _).
  exists out, s', pixels. repeat split; try assumption.
  exact (Forall2_right _ Hpixels).
Qed.

End Render.

(** ** The optics, in exact arithmetic *)


Section Optics.

Import Exact.
Local Open Scope R_scope.





Variables degrees_to_radians tan : R -> R.
Variable St : Type.
Variable random_double : M St R.
Variable random_in_unit_disk : M St (vec3 R).





End Optics.

(** ** The light that is gathered, in exact arithmetic *)

Section Light.

Import Exact.
Local Open Scope R_scope.

Variables material St : Type.
Variable scatter :
  material -> ray R -> hit_record R material -> M St (option (vec3 R * ray R)).
Variable infinity : R.
Variable world : hittable R material St.





Variable random_double : M St R.
Variable random_in_unit_disk : M St (vec3 R).
Variables degrees_to_radians tan : R -> R.


End Light.

(** ** Worked examples at binary64 *)

Module Examples.

Import Binary64.

(** Two materials: one that reflects half of the light straight on, one
    that absorbs. *)
Inductive sample_material : Type := mirror | absorber.

Definition sample_scatter (m : sample_material) (r : ray float)
    (rec : hit_record float sample_material)
  : M unit (option (vec3 float * ray float)) :=
  match m with
  | mirror =>
      ret (Some (Vec3 0.5%float 0.5%float 0.5%float,
                 Ray (hit_p rec) (direction r)))
  | absorber => ret None
  end.

(** The empty scene. *)
Definition nothing : hittable float sample_material unit :=
  Hittable (fun _ _ => ret None).

(** A scene that every ray hits one unit along its way, on a surface of
    material [m]. *)
Definition everywhere (m : sample_material)
  : hittable float sample_material unit :=
  Hittable (fun r _ =>
              ret (Some (Hit_record (origin r + direction r)%V
                           (Vec3 0%float 1%float 0%float) m 1%float true))).

(** A scene that a ray hits, one unit along its way, when it starts at
    height 1 or below. *)
Definition once : hittable float sample_material unit :=
  Hittable (fun r _ =>
              if (e1 (origin r) <=? 1)%float
              then ret (Some (Hit_record (origin r + direction r)%V
                                (Vec3 0%float 1%float 0%float) mirror
                                1%float true))
              else ret None).

Definition up : ray float :=
  Ray (Vec3 0%float 0%float 0%float) (Vec3 0%float 2%float 0%float).

Definition down : ray float :=
  Ray (Vec3 0%float 0%float 0%float) (Vec3 0%float (-3)%float 0%float).

(** A generator that reads its draws off a tape. *)
Definition tape_double : M (list float) float :=
  fun tape => match tape with
              | d :: tape' => (d, tape')
              | [] => (0%float, [])
              end.

Definition tape_disk : M (list float) (vec3 float) :=
  bind tape_double (fun a =>
  bind tape_double (fun b => ret (Vec3 a b 0%float))).

(** Private members to sample rays from: a 100 x 100 image on the plane
    [z = -1], one pixel every [0.02]. *)
Definition sample_state : camera_state float :=
  Camera_state 100
    (Vec3 0%float 0%float 0%float)
    (Vec3 (-0.99)%float 0.99%float (-1)%float)
    (Vec3 0.02%float 0%float 0%float)
    (Vec3 0%float (-0.02)%float 0%float)
    (Vec3 1%float 0%float 0%float)
    (Vec3 0%float 1%float 0%float)
    (Vec3 0%float 0%float 1%float)
    (Vec3 0.1%float 0%float 0%float)
    (Vec3 0%float 0.1%float 0%float).

(** The default camera, and the same with an aperture of 2 degrees. *)
Definition pinhole : camera float := default_camera.

Definition aperture : camera float :=
  Camera 1%float 100 10 10 90%float
    (Vec3 0%float 0%float (-1)%float) (Vec3 0%float 0%float 0%float)
    (Vec3 0%float 1%float 0%float) 2%float 10%float.

(** In exact arithmetic: [degrees_to_radians] as the spec's
    [radians(vfov)]. *)
Definition degrees_to_radians_exact (d : R) : R := (d * PI / 180)%R.

(** The default camera, a 16:9 camera 400 pixels wide, and a camera with
    the aspect ratio [10^-9]. *)
Definition default_exact : camera R := @default_camera R Exact.R_scalar.



End Examples.

(** ** The theorems at concrete inputs *)

Import Binary64 Exact Examples.

(** C1 at the two scenes [everywhere mirror] and [everywhere absorber],
    with two bounces allowed. *)
Lemma ray_colour_scatter_or_absorb_witness :
  ray_colour sample_scatter PrimFloat.infinity up 2 (everywhere mirror) tt
  = ((Vec3 0.5%float 0.5%float 0.5%float
      * fst (ray_colour sample_scatter PrimFloat.infinity
               (Ray (Vec3 0%float 2%float 0%float) (direction up)) (2 - 1)
               (everywhere mirror) tt))%V,
     snd (ray_colour sample_scatter PrimFloat.infinity
            (Ray (Vec3 0%float 2%float 0%float) (direction up)) (2 - 1)
            (everywhere mirror) tt))
  /\ ray_colour sample_scatter PrimFloat.infinity up 2 (everywhere absorber) tt
     = (black, tt).
Proof.
  split.
  - apply (proj1 (@ray_colour_scatter_or_absorb float _ _ _ sample_scatter
                    PrimFloat.infinity up 2 (everywhere mirror) tt tt
                    _ ltac:(lia) eq_refl)).
    reflexivity.
  - apply (proj2 (@ray_colour_scatter_or_absorb float _ _ _ sample_scatter
                    PrimFloat.infinity up 2 (everywhere absorber) tt tt
                    _ ltac:(lia) eq_refl)).
    reflexivity.
Defined.

(** C2 in the empty scene: a ray straight up sees sky blue, a ray
    straight down sees white. *)
Lemma ray_colour_background_witness :
  ray_colour sample_scatter PrimFloat.infinity up 5 nothing tt
  = (Vec3 0.5%float 0.7%float 1%float, tt)
  /\ ray_colour sample_scatter PrimFloat.infinity down 5 nothing tt
     = (Vec3 1%float 1%float 1%float, tt).
Proof.
  split.
  - apply (proj1 (proj2 (@ray_colour_background _ _ sample_scatter
                           PrimFloat.infinity up 5 nothing tt tt
                           ltac:(lia) eq_refl))).
    reflexivity.
  - apply (proj2 (proj2 (@ray_colour_background _ _ sample_scatter
                           PrimFloat.infinity down 5 nothing tt tt
                           ltac:(lia) eq_refl))).
    reflexivity.
Defined.

(** C3 in a scene that every ray hits. *)
Lemma ray_colour_depth_exhausted_witness :
  ray_colour sample_scatter PrimFloat.infinity up 0 (everywhere mirror) tt
  = (black, tt).
Proof.
  apply (@ray_colour_depth_exhausted float _ _ _ sample_scatter
           PrimFloat.infinity up 0 (everywhere mirror) tt).
  lia.
Defined.

(** C8 at pixel [(3, 4)]: the pinhole camera starts its ray at the
    center; with an aperture the ray starts at the point the disk draw
    [(0.5, -0.25)] selects. *)
Lemma get_ray_origin_witness :
  origin (fst (get_ray tape_double tape_disk pinhole sample_state 3 4
                 [0.25; 0.75; 0.5; -0.25]%float))
  = Vec3 0%float 0%float 0%float
  /\ origin (fst (get_ray tape_double tape_disk aperture sample_state 3 4
                    [0.25; 0.75; 0.5; -0.25]%float))
     = (center sample_state
        + 0.5%float *: defocus_disk_u sample_state
        + (-0.25)%float *: defocus_disk_v sample_state)%V.
Proof.
  split.
  - apply (proj1 (get_ray_origin tape_double tape_disk pinhole sample_state
                    3 4 [0.25; 0.75; 0.5; -0.25]%float)).
    reflexivity.
  - apply (proj2 (get_ray_origin tape_double tape_disk aperture sample_state
                    3 4 [0.25; 0.75; 0.5; -0.25]%float)).
    reflexivity.
Defined.

Lemma default_exact_initialized :
  exists st, initialize degrees_to_radians_exact tan default_exact = Some st.
Proof.
  assert (Hconv : to_int (of_int (image_width default_exact)
                          / aspect_ratio default_exact)%S = Some 100).
  { change (R_to_int (100 / 1)%R = Some 100).
    replace (100 / 1)%R with (IZR 100) by (simpl; lra).
    rewrite R_to_int_IZR. reflexivity. }
  destruct (initialize_image_height degrees_to_radians_exact tan
              default_exact Hconv) as (st & Hst & _).
  exists st. exact Hst.
Qed.




(** C10 at the default camera. *)
Lemma initialize_center_is_lookfrom_witness :
  exists st,
    initialize degrees_to_radians_exact tan default_exact = Some st
    /\ center st = lookfrom default_exact
    /\ (forall i j tape,
          origin (fst (get_ray (St := list R)
                         (fun t => (0%R, t)) (fun t => (Vec3 0%R 0%R 0%R, t))
                         default_exact st i j tape))
          = lookfrom default_exact).
Proof.
  destruct default_exact_initialized as (st & Hst).
  exists st. split; [ exact Hst | ].
  destruct (initialize_center_is_lookfrom degrees_to_radians_exact
              (fun t : list R => (0%R, t))
              (fun t : list R => (Vec3 0%R 0%R 0%R, t))
              tan default_exact Hst) as (Hc & Hpin & _).
  split; [ exact Hc | ].
  intros i j tape. apply Hpin.
  unfold default_exact, default_camera. cbn [defocus_angle].
  reals. unfold Rleb. destruct (Rle_dec 0 0); [ reflexivity | lra ].
Defined.

(** ** The model, run *)

(** One bounce off the mirror, then the sky: half of sky blue. *)
Example ray_colour_one_bounce :
  ray_colour sample_scatter PrimFloat.infinity up 5 once tt
  = (Vec3 0.25%float 0.35%float 0.5%float, tt).
Proof. vm_compute. reflexivity. Qed.

(** The two calls to the scene behind it. *)
Example queries_one_bounce :
  queries sample_scatter PrimFloat.infinity up 5 once tt
  = [ (up, Interval 0.001%float PrimFloat.infinity);
      (Ray (Vec3 0%float 2%float 0%float) (Vec3 0%float 2%float 0%float),
       Interval 0.001%float PrimFloat.infinity) ].
Proof. vm_compute. reflexivity. Qed.

(** Between mirrors all around, three bounces need four frames. *)
Example ray_colour_fuel_mirrors :
  ray_colour_fuel sample_scatter PrimFloat.infinity 3 up 3
    (everywhere mirror) tt = None
  /\ ray_colour_fuel sample_scatter PrimFloat.infinity 4 up 3
       (everywhere mirror) tt = Some (Vec3 0%float 0%float 0%float, tt).
Proof. split; vm_compute; reflexivity. Qed.

(** The ray through pixel [(3, 4)] of the pinhole camera, jittered by
    [(-0.25, 0.25)]; the disk draws stay on the tape. *)
Example get_ray_pinhole :
  get_ray tape_double tape_disk pinhole sample_state 3 4
    [0.25; 0.75; 0.5; -0.25]%float
  = (Ray (Vec3 0%float 0%float 0%float)
       (Vec3 (-0.93499999999999994)%float 0.90500000000000003%float
          (-1)%float),
     [0.5; -0.25]%float).
Proof. vm_compute. reflexivity. Qed.

(** [static_cast<int>] at binary64: a 16:9 image 400 pixels wide is 225
    pixels high; truncation is toward zero. *)
Example to_int_binary64 :
  to_int (of_int 400 / (16 / 9)%float)%S = Some 225
  /\ to_int (of_int (-7) / 2%float)%S = Some (-3)
  /\ sfloor (of_int (-7) / 2%float)%S = -4.
Proof. repeat split. Qed.

(** ** Worked examples in exact arithmetic *)

Module ExactExamples.

Import Exact.
Local Open Scope R_scope.

(** A generator that counts its draws: every [random_double] is [1/4],
    every point of the disk is [(1/2, -1/4, 0)]. *)
Definition counting_double : M nat R := fun n => (1 / 4, S n).

Definition counting_disk : M nat (vec3 R) :=
  fun n => (Vec3 (1 / 2) (- (1 / 4)) 0, S n).

(** One material, which reflects half of the light along the normal. *)
Definition grey : vec3 R := Vec3 (1 / 2) (1 / 2) (1 / 2).

Definition dull (m : unit) (r : ray R) (rec : hit_record R unit)
  : M nat (option (vec3 R * ray R)) :=
  ret (Some (grey, Ray (hit_p rec) (hit_normal rec))).

(** The empty scene, and a scene that every ray hits one unit along its
    way. *)
Definition void : hittable R unit nat := Hittable (fun _ _ => ret None).

Definition room : hittable R unit nat :=
  Hittable (fun r _ =>
              ret (Some (Hit_record (origin r + direction r)%V
                           (Vec3 0 1 0) tt 1 true))).

(** A bound for the ray parameter that stands for [infinity]. *)
Definition horizon : R := 1000000000.

Definition forward : ray R := Ray (Vec3 0 0 0) (Vec3 0 0 (-1)).


Definition no_samples : camera R :=
  Camera 1 100 0 10 90 (Vec3 0 0 (-1)) (Vec3 0 0 0) (Vec3 0 1 0) 0 10.

Definition no_bounces : camera R :=
  Camera 1 100 10 0 90 (Vec3 0 0 (-1)) (Vec3 0 0 0) (Vec3 0 1 0) 0 10.


End ExactExamples.

Import ExactExamples.

(** A square image 100 pixels wide is 100 pixels high. *)
Lemma square_initialized (c : camera R) :
  image_width c = 100 -> aspect_ratio c = 1%R ->
  exists st, initialize degrees_to_radians_exact tan c = Some st.
Proof.
  intros Hw Ha.
  assert (Hconv : to_int (of_int (image_width c) / aspect_ratio c)%S
                  = Some 100).
  { rewrite Hw, Ha. change (R_to_int (100 / 1)%R = Some 100).
    replace (100 / 1)%R with (IZR 100) by lra.
    rewrite R_to_int_IZR. reflexivity. }
  destruct (initialize_image_height degrees_to_radians_exact tan c Hconv)
    as (st & Hst & _).
  exists st. exact Hst.
Qed.



(** X1 at the default camera in the empty scene: 100 rows of 100
    pixels. *)
Lemma render_writes_raster_witness :
  exists st,
    initialize degrees_to_radians_exact tan default_exact = Some st
    /\ exists out s' pixels,
        render dull horizon degrees_to_radians_exact counting_double
          counting_disk tan default_exact void 0%nat = (Some out, s')
        /\ cout out
           = header default_exact st
             ++ map (fun p => Write_colour p (samples_per_pixel default_exact))
                  pixels
        /\ Forall2 (fun ij p =>
                      exists t,
                        p = fst (pixel_colour dull horizon counting_double
                                   counting_disk default_exact st void
                                   (fst ij) (snd ij) t))
             (raster default_exact st) pixels
        /\ List.length pixels
           = (Z.to_nat (image_height st)
              * Z.to_nat (image_width default_exact))%nat.
Proof.
  destruct default_exact_initialized as (st & Hst).
  exists st. split; [ exact Hst | ].
  exact (render_writes_raster dull horizon degrees_to_radians_exact
           counting_double counting_disk tan default_exact void 0%nat Hst).
Defined.

(** X2 at the default camera. *)
Lemma render_reports_countdown_witness :
  exists st,
    initialize degrees_to_radians_exact tan default_exact = Some st
    /\ exists out s',
        render dull horizon degrees_to_radians_exact counting_double
          counting_disk tan default_exact room 0%nat = (Some out, s')
        /\ clog out
           = flat_map (fun j => scanlines_remaining st (Z.of_nat j))
               (seq 0 (Z.to_nat (image_height st)))
             ++ done.
Proof.
  destruct default_exact_initialized as (st & Hst).
  exists st. split; [ exact Hst | ].
  exact (render_reports_countdown dull horizon degrees_to_radians_exact
           counting_double counting_disk tan default_exact room 0%nat Hst).
Defined.

(** X3 at a camera with [samples_per_pixel = 0]: no draw is made. *)
Lemma render_without_samples_witness :
  exists st,
    initialize degrees_to_radians_exact tan no_samples = Some st
    /\ exists out pixels,
        render dull horizon degrees_to_radians_exact counting_double
          counting_disk tan no_samples void 0%nat = (Some out, 0%nat)
        /\ cout out
           = header no_samples st ++ map (fun p => Write_colour p 0) pixels
        /\ Forall (fun p => p = black) pixels.
Proof.
  destruct (square_initialized no_samples eq_refl eq_refl) as (st & Hst).
  exists st. split; [ exact Hst | ].
  apply (render_without_samples dull horizon degrees_to_radians_exact
           counting_double counting_disk tan no_samples void 0%nat Hst).
  simpl. lia.
Defined.

(** X4 at a camera with [max_depth = 0], in exact arithmetic. *)
Lemma render_without_bounces_witness :
  exists st,
    initialize degrees_to_radians_exact tan no_bounces = Some st
    /\ exists out s' pixels,
        render dull horizon degrees_to_radians_exact counting_double
          counting_disk tan no_bounces void 0%nat = (Some out, s')
        /\ cout out
           = header no_bounces st ++ map (fun p => Write_colour p 10) pixels
        /\ Forall (fun p => p = black) pixels.
Proof.
  destruct (square_initialized no_bounces eq_refl eq_refl) as (st & Hst).
  exists st. split; [ exact Hst | ].
  apply (render_without_bounces dull horizon degrees_to_radians_exact
           counting_double counting_disk tan no_bounces void 0%nat Hst).
  - reals. lra.
  - simpl. lia.
Defined.





(** X10 in the room: three frames for [depth = 3]. *)
Lemma ray_colour_fuel_short_witness :
  ray_colour_fuel dull horizon 3 forward 3 room 0%nat = None.
Proof.
  apply (ray_colour_fuel_short dull horizon room).
  - intros r s. eexists. eexists. reflexivity.
  - intros m r rec s. eexists. eexists. eexists. reflexivity.
  - simpl. lia.
Defined.





(** X16 at the default camera. *)
Lemma image_height_is_positive_int_witness :
  exists st,
    initialize degrees_to_radians_exact tan default_exact = Some st
    /\ 1 <= image_height st <= INT_MAX
    /\ image_height st
       = Z.max 1 (sfloor (of_int (image_width default_exact)
                          / aspect_ratio default_exact)%S).
Proof.
  destruct default_exact_initialized as (st & Hst).
  exists st. split; [ exact Hst | ].
  exact (image_height_is_positive_int degrees_to_radians_exact tan
           default_exact Hst).
Defined.
